(** * GmsDemo: the GMS match-pipeline driver

    A shallow embedding of [Paper Presentation Demo/GmsDemo.cpp].  The
    driver is a straight-line program over four OpenCV collaborators (the
    ORB extractor, the brute-force matcher, the GMS filter and the match
    renderer), the image decoder and the HighGUI display surface.  The
    collaborators whose algorithms the driver treats as black boxes are
    interfaces (type classes); the display surface, the two output streams
    and the pending key presses of the user are an explicit [World] that the
    driver threads through a small monad.  Every call that leaves the driver
    is recorded in the world, so that statements about what the driver
    calls, with which arguments and in which order, are statements about the
    recorded trace. *)

From Stdlib Require Import ZArith List String Ascii Bool Lia DecimalString.
Import ListNotations.
Open Scope Z_scope.

(** ** Data model *)

(** [cv::Mat], restricted to what the driver reads: the two extents (C++
    [int]) and the data pointer, [None] being the null pointer.  The storage
    is the row-major byte buffer. *)
Record Mat : Type := mkMat {
  rows : Z;
  cols : Z;
  data : option (list Z)
}.

(** [Mat()], the matrix a declaration without initialiser builds. *)
Definition Mat_default : Mat := mkMat 0 0 None.

Definition Mat_total (m : Mat) : Z := rows m * cols m.

(** Modelled from the spec: [Mat::empty] is a method of OpenCV, which is not
    part of the sources.  Section 3 of the specification: an Image is either
    empty (no pixel storage, zero dimensions) or valid; the method tells
    the two apart by the data pointer and the number of elements. *)
Definition Mat_empty (m : Mat) : bool :=
  match data m with
  | None => true
  | Some _ => Mat_total m =? 0
  end.

(** [cv::Size], and [Mat::size()], which is (cols, rows). *)
Record Size : Type := mkSize { width : Z; height : Z }.

Definition Mat_size (m : Mat) : Size := mkSize (cols m) (rows m).

(** A C++ [float] kept as its 32-bit pattern: the driver never computes
    with one. *)
Definition float32 : Type := Z.

(** [cv::KeyPoint]. *)
Record KeyPoint : Type := mkKeyPoint {
  pt_x : float32;
  pt_y : float32;
  kp_size : float32;
  kp_angle : float32;
  kp_response : float32;
  kp_octave : Z;
  kp_class_id : Z
}.

(** [cv::DMatch].  The [distance] field is a [float] in OpenCV; under the
    Hamming norm, the only one the driver asks for, it holds a bit count,
    kept here as the integer it is. *)
Record DMatch : Type := mkDMatch {
  queryIdx : Z;
  trainIdx : Z;
  imgIdx : Z;
  distance : Z
}.

(** [enum DETECTOR_TYPE {ORB};] an enumeration is an integer, and the
    [switch] of [createDetector] has a [default] branch for the values that
    are not enumerators. *)
Definition DETECTOR_TYPE : Type := Z.
Definition ORB : DETECTOR_TYPE := 0.

Definition MAX_FEATURES : Z := 10000.

Definition GMS_NO_RS_MATCHES_WINDOW_NAME : string :=
  "GMS No Rotation or Scale Support".
Definition GMS_RS_MATCHES_WINDOW_NAME : string :=
  "GMS with Rotation and Scale Support".
Definition GMS_NRS_MATCHES_WINDOW_NAME : string :=
  "GMS with Scale Support and No Rotation".
Definition GMS_VIDEO_MATCHES_WINDOW_NAME : string :=
  "GMS with Video Support".

Definition EXIT_SUCCESS : Z := 0.
Definition EXIT_FAILURE : Z := 1.

(** OpenCV constants the driver names. *)
Definition NORM_HAMMING : Z := 6.
Definition WINDOW_NORMAL : Z := 0.

(** The objects behind [Ptr<Feature2D>] and [Ptr<BFMatcher>].  ORB is the
    only extractor the driver builds; [ORB::create] is called with the
    feature budget alone, its other parameters keep their defaults. *)
Inductive Feature2D : Type :=
| ORBDetector (nfeatures : Z).

Definition ORB_create (nfeatures : Z) : Feature2D := ORBDetector nfeatures.

Definition feature_budget (d : Feature2D) : Z :=
  match d with ORBDetector n => n end.

Record BFMatcher : Type := mkBFMatcher {
  normType : Z;
  crossCheck : bool
}.

Definition BFMatcher_create (norm : Z) (cross : bool) : BFMatcher :=
  mkBFMatcher norm cross.

(** ** The collaborators

    Their algorithms are outside the driver; each is a deterministic
    function of its arguments. *)

Class Extractor : Type := {
  Feature2D_detectAndCompute : Feature2D -> Mat -> list KeyPoint * Mat
}.

Class DescriptorMatcher : Type := {
  BFMatcher_match : BFMatcher -> Mat -> Mat -> list DMatch
}.

Class GMSProvider : Type := {
  matchGMS : Size -> Size -> list KeyPoint -> list KeyPoint ->
             list DMatch -> bool -> bool -> list DMatch
}.

Class Renderer : Type := {
  drawMatches : Mat -> list KeyPoint -> Mat -> list KeyPoint ->
                list DMatch -> Mat
}.

(** ** The world the driver runs in *)

(** One entry per call that leaves the driver. *)
Inductive Event : Type :=
| EImread (path : string)
| ENamedWindow (name : string) (flags : Z)
| EResizeWindow (name : string) (w h : Z)
| EImshow (name : string) (img : Mat)
| EDetectAndCompute (d : Feature2D) (img : Mat)
| EMatch (m : BFMatcher) (query train : Mat)
| EMatchGMS (size1 size2 : Size) (kp1 kp2 : list KeyPoint)
            (matches : list DMatch) (rotation scale : bool)
| EDrawMatches (img1 : Mat) (kp1 : list KeyPoint) (img2 : Mat)
               (kp2 : list KeyPoint) (matches : list DMatch)
| EWaitKey (delay : Z)
| EDestroyAllWindows.

(** [files] is what the decoder yields for each path (the empty matrix for
    a file that is missing or does not decode); [keys] are the key presses
    the user will still make; [windows] is the registry of the display
    surface, in creation order; [events] is the record of calls, newest
    first. *)
Record World : Type := mkWorld {
  files : string -> Mat;
  keys : list Z;
  cout : string;
  cerr : string;
  windows : list string;
  events : list Event
}.

Definition trace (w : World) : list Event := rev (events w).

(** The world at process start. *)
Definition boot (fs : string -> Mat) (ks : list Z) : World :=
  mkWorld fs ks EmptyString EmptyString [] [].

Definition record (e : Event) (w : World) : World :=
  mkWorld (files w) (keys w) (cout w) (cerr w) (windows w) (e :: events w).

Definition set_windows (ws : list string) (w : World) : World :=
  mkWorld (files w) (keys w) (cout w) (cerr w) ws (events w).

Definition set_keys (ks : list Z) (w : World) : World :=
  mkWorld (files w) ks (cout w) (cerr w) (windows w) (events w).

Definition put_cout (s : string) (w : World) : World :=
  mkWorld (files w) (keys w) (cout w ++ s)%string (cerr w) (windows w)
          (events w).

Definition put_cerr (s : string) (w : World) : World :=
  mkWorld (files w) (keys w) (cout w) (cerr w ++ s)%string (windows w)
          (events w).

(** A run either returns, or stays blocked in a wait for a key press that
    never comes. *)
Inductive Outcome (A : Type) : Type :=
| Returned (a : A) (w : World)
| Blocked (w : World).

Arguments Returned {A} a w.
Arguments Blocked {A} w.

Definition IO (A : Type) : Type := World -> Outcome A.

Definition ret {A : Type} (a : A) : IO A := fun w => Returned a w.

Definition bind {A B : Type} (m : IO A) (k : A -> IO B) : IO B :=
  fun w =>
    match m w with
    | Returned a w' => k a w'
    | Blocked w' => Blocked w'
    end.

Declare Scope io_scope.
Delimit Scope io_scope with io.
Notation "x <- m ;; k" := (bind m (fun x => k))
  (at level 61, m at next level, right associativity) : io_scope.
Notation "' p <- m ;; k" := (bind m (fun p => k))
  (at level 61, p pattern, m at next level, right associativity) : io_scope.
Notation "m ;; k" := (bind m (fun _ => k))
  (at level 61, right associativity) : io_scope.
Open Scope io_scope.

(** The world a run ends in, returned or blocked. *)
Definition final {A : Type} (o : Outcome A) : World :=
  match o with
  | Returned _ w => w
  | Blocked w => w
  end.

(** The value a run returns, if it returns. *)
Definition returned {A : Type} (o : Outcome A) : option A :=
  match o with
  | Returned a _ => Some a
  | Blocked _ => None
  end.

(** *** Streams *)

Definition CRLF : string :=
  String (ascii_of_nat 13) (String (ascii_of_nat 10) EmptyString).

(** [std::endl]: a line feed (and a flush). *)
Definition endl : string := String (ascii_of_nat 10) EmptyString.

Definition cout_write (s : string) : IO unit :=
  fun w => Returned tt (put_cout s w).

Definition cerr_write (s : string) : IO unit :=
  fun w => Returned tt (put_cerr s w).

(** [operator<<] on a [size_t]. *)
Definition show_size_t (n : nat) : string :=
  NilZero.string_of_uint (Nat.to_uint n).

(** *** Image decoder and display surface

    Modelled from the spec: [imread] and the HighGUI calls are OpenCV's and
    not part of the sources.  Section 4.1 of the specification: the decoder
    returns an empty Image on any failure and never raises.  Section 4.7:
    [show] creates or reuses a named window and displays the image,
    [waitForUser] blocks until a key press, [closeAll] releases all
    windows.  Section 7: collaborators signal failure by what they return,
    they do not throw, so every call below returns to the driver. *)

Definition imread (path : string) : IO Mat :=
  fun w => Returned (files w path) (record (EImread path) w).

(** A name enters the registry once. *)
Definition open_window (name : string) (ws : list string) : list string :=
  if existsb (String.eqb name) ws then ws else ws ++ [name].

Definition namedWindow (name : string) (flags : Z) : IO unit :=
  fun w =>
    Returned tt
      (set_windows (open_window name (windows w))
                   (record (ENamedWindow name flags) w)).

Definition resizeWindow (name : string) (wd ht : Z) : IO unit :=
  fun w => Returned tt (record (EResizeWindow name wd ht) w).

Definition imshow (name : string) (img : Mat) : IO unit :=
  fun w =>
    Returned tt
      (set_windows (open_window name (windows w))
                   (record (EImshow name img) w)).

(** [waitKey(0)]: wait without limit for a key press and return its code.
    The driver calls it with delay 0 only. *)
Definition waitKey (delay : Z) : IO Z :=
  fun w =>
    let w' := record (EWaitKey delay) w in
    match keys w with
    | [] => Blocked w'
    | k :: ks => Returned k (set_keys ks w')
    end.

Definition destroyAllWindows : IO unit :=
  fun w => Returned tt (set_windows [] (record EDestroyAllWindows w)).

(** ** The program *)

(** [isValidImage]: [return (!image.empty());] *)
Definition isValidImage (image : Mat) : bool := negb (Mat_empty image).

(** [createDetector]: the [switch] over the detector type; [None] is
    [nullptr]. *)
Definition createDetector (detectorType : DETECTOR_TYPE) : option Feature2D :=
  if detectorType =? ORB then Some (ORB_create MAX_FEATURES)
  else None.

(** [displayMatches]: a resizable window of the image's extents, then the
    image. *)
Definition displayMatches (imageMatches : Mat) (windowName : string)
  : IO unit :=
  namedWindow windowName WINDOW_NORMAL ;;
  resizeWindow windowName (cols imageMatches) (rows imageMatches) ;;
  imshow windowName imageMatches.

Section Pipeline.

Context {extractor : Extractor} {matcher : DescriptorMatcher}
        {gms : GMSProvider} {renderer : Renderer}.

(** The call [detector->detectAndCompute(image, noArray(), kp, desc)]. *)
Definition Feature2D_call (d : Feature2D) (image : Mat)
  : IO (list KeyPoint * Mat) :=
  fun w =>
    Returned (Feature2D_detectAndCompute d image)
             (record (EDetectAndCompute d image) w).

(** [detectAndCompute].  [keyPoints] and [descriptors] are the reference
    parameters; the result carries their values at return next to the
    flag. *)
Definition detectAndCompute (detectorType : DETECTOR_TYPE) (image : Mat)
    (keyPoints : list KeyPoint) (descriptors : Mat)
  : IO (bool * list KeyPoint * Mat) :=
  match createDetector detectorType with
  | None => ret (false, keyPoints, descriptors)
  | Some detector =>
      cout_write ("Detecting keypoints for input image" ++ CRLF)%string ;;
      out <- Feature2D_call detector image ;;
      ret (true, fst out, snd out)
  end.

(** The call [matcher->match(descriptor1, descriptor2, matches)]. *)
Definition BFMatcher_call (m : BFMatcher) (query train : Mat)
  : IO (list DMatch) :=
  fun w =>
    Returned (BFMatcher_match m query train) (record (EMatch m query train) w).

(** [computeMatches]. *)
Definition computeMatches (descriptor1 descriptor2 : Mat)
  : IO (list DMatch) :=
  let matcher := BFMatcher_create NORM_HAMMING false in
  matches <- BFMatcher_call matcher descriptor1 descriptor2 ;;
  ret matches.

(** The call [xfeatures2d::matchGMS(...)]. *)
Definition matchGMS_call (size1 size2 : Size) (kp1 kp2 : list KeyPoint)
    (matchesAll : list DMatch) (rotation scale : bool)
  : IO (list DMatch) :=
  fun w =>
    Returned (matchGMS size1 size2 kp1 kp2 matchesAll rotation scale)
             (record (EMatchGMS size1 size2 kp1 kp2 matchesAll
                                rotation scale) w).

(** The call [drawMatches(image1, kp1, image2, kp2, matches, out)]. *)
Definition drawMatches_call (image1 : Mat) (kp1 : list KeyPoint)
    (image2 : Mat) (kp2 : list KeyPoint) (matches : list DMatch)
  : IO Mat :=
  fun w =>
    Returned (drawMatches image1 kp1 image2 kp2 matches)
             (record (EDrawMatches image1 kp1 image2 kp2 matches) w).

(** [gmsCreateDisplayMatches].  Both size arguments of the GMS call are
    [image1.size()], as in the source. *)
Definition gmsCreateDisplayMatches (image1 image2 : Mat)
    (kp1 kp2 : list KeyPoint) (matchesAll : list DMatch)
    (windowName : string) (rotation scale : bool)
  : IO unit :=
  matchesGMS <- matchGMS_call (Mat_size image1) (Mat_size image1)
                              kp1 kp2 matchesAll rotation scale ;;
  cout_write ("MatchGMS Size: " ++ show_size_t (List.length matchesGMS)
              ++ endl)%string ;;
  imageMatches <- drawMatches_call image1 kp1 image2 kp2 matchesGMS ;;
  displayMatches imageMatches windowName ;;
  _ <- waitKey 0 ;;
  ret tt.

Definition MSG_UNABLE_TO_LOAD : string :=
  ("Unable to load images. Please check that dog01.jpg and "
   ++ "dog02.jpg images exist in the same folder as the executable."
   ++ CRLF)%string.

Definition MSG_INVALID_DETECTOR : string :=
  ("Invalid detector type provided. "
   ++ "Unable to detect and compute keypoints and descriptors with "
   ++ "selected detector type." ++ CRLF)%string.

(** [main]. *)
Definition main : IO Z :=
  dog01 <- imread "dog01.jpg" ;;
  dog02 <- imread "dog02.jpg" ;;
  displayMatches dog01 "Dog01 Image" ;;
  displayMatches dog02 "Dog02 Image" ;;
  if negb (isValidImage dog01) || negb (isValidImage dog02) then
    cerr_write MSG_UNABLE_TO_LOAD ;;
    ret EXIT_FAILURE
  else
    '(img1detect, dog01KP, dog01Desc) <-
      detectAndCompute ORB dog01 [] Mat_default ;;
    '(img2detect, dog02KP, dog02Desc) <-
      detectAndCompute ORB dog02 [] Mat_default ;;
    if negb img1detect || negb img2detect then
      cerr_write MSG_INVALID_DETECTOR ;;
      ret EXIT_FAILURE
    else
      matchesAll <- computeMatches dog01Desc dog02Desc ;;
      gmsCreateDisplayMatches dog01 dog02 dog01KP dog02KP matchesAll
        GMS_NO_RS_MATCHES_WINDOW_NAME false false ;;
      gmsCreateDisplayMatches dog01 dog02 dog01KP dog02KP matchesAll
        GMS_RS_MATCHES_WINDOW_NAME true true ;;
      gmsCreateDisplayMatches dog01 dog02 dog01KP dog02KP matchesAll
        GMS_NRS_MATCHES_WINDOW_NAME false true ;;
      destroyAllWindows ;;
      ret EXIT_SUCCESS.

End Pipeline.

(** ** The brute-force matcher of the specification *)

Definition descriptorCount (m : Mat) : nat := Z.to_nat (rows m).

(** Row [i] of a one-channel byte matrix with continuous storage. *)
Definition Mat_row (m : Mat) (i : nat) : list Z :=
  match data m with
  | None => []
  | Some bytes =>
      firstn (Z.to_nat (cols m)) (skipn (i * Z.to_nat (cols m))%nat bytes)
  end.

(** Number of set bits among the [n] low bits. *)
Fixpoint popcount (n : nat) (z : Z) : Z :=
  match n with
  | O => 0
  | S k => (if Z.testbit z (Z.of_nat k) then 1 else 0) + popcount k z
  end.

(** Bitwise Hamming distance of two bit-packed rows. *)
Fixpoint hamming (a b : list Z) : Z :=
  match a, b with
  | x :: a', y :: b' => popcount 8 (Z.lxor x y) + hamming a' b'
  | _, _ => 0
  end.

(** The closest of the train rows [js], scanned in ascending order; a later
    row replaces the best so far only when strictly closer, so that ties go
    to the lower train index. *)
Fixpoint nearest (q : list Z) (train : Mat) (js : list nat)
    (best : option (nat * Z)) : option (nat * Z) :=
  match js with
  | [] => best
  | j :: js' =>
      let d := hamming q (Mat_row train j) in
      nearest q train js'
        (match best with
         | None => Some (j, d)
         | Some (_, bd) => if d <? bd then Some (j, d) else best
         end)
  end.

Definition match_row (query train : Mat) (i : nat) : list DMatch :=
  match nearest (Mat_row query i) train (seq 0 (descriptorCount train)) None
  with
  | Some (j, d) => [mkDMatch (Z.of_nat i) (Z.of_nat j) 0 d]
  | None => []
  end.

(** Modelled from the spec: [BFMatcher::match] is a method of OpenCV, which
    is not part of the sources.  Section 4.4 of the specification: for every
    query row, the single closest train row under bitwise-Hamming distance,
    cross-check disabled, ties broken by ascending train index.  A query row
    for which there is no train row at all has no closest row and yields no
    match. *)
Definition BFMatcher_match_spec (m : BFMatcher) (query train : Mat)
  : list DMatch :=
  flat_map (match_row query train) (seq 0 (descriptorCount query)).

#[export] Instance spec_matcher : DescriptorMatcher :=
  {| BFMatcher_match := BFMatcher_match_spec |}.

(** ** Observations on a run *)

Definition LF : ascii := ascii_of_nat 10.

(** Number of line terminators in a stream. *)
Fixpoint line_count (s : string) : nat :=
  match s with
  | EmptyString => O
  | String c s' => ((if Ascii.eqb c LF then 1 else 0) + line_count s')%nat
  end.

(** [mentions needle hay]: [needle] occurs in [hay]. *)
Fixpoint mentions (needle hay : string) : bool :=
  String.prefix needle hay ||
  match hay with
  | EmptyString => false
  | String _ hay' => mentions needle hay'
  end.

(** The lines of a stream, without their terminators; [cur] is the part of
    the current line read so far. *)
Fixpoint lines_from (cur : string) (s : string) : list string :=
  match s with
  | EmptyString =>
      match cur with EmptyString => [] | _ => [cur] end
  | String c s' =>
      if Ascii.eqb c LF then cur :: lines_from EmptyString s'
      else lines_from (cur ++ String c EmptyString)%string s'
  end.

Definition lines (s : string) : list string := lines_from EmptyString s.

(** The [MatchGMS Size: <N>] lines of the standard output. *)
Definition printed_gms_sizes (w : World) : list string :=
  filter (String.prefix "MatchGMS Size: ") (lines (cout w)).

Definition is_extraction (e : Event) : bool :=
  match e with EDetectAndCompute _ _ => true | _ => false end.

Definition is_matching (e : Event) : bool :=
  match e with EMatch _ _ _ => true | _ => false end.

Definition is_gms (e : Event) : bool :=
  match e with EMatchGMS _ _ _ _ _ _ _ => true | _ => false end.

(** Display steps with the images forgotten: [inl name] is a show in the
    window [name], [inr (Some d)] a wait with delay [d], [inr None] the
    closing of all windows. *)
Definition display_step (e : Event) : option (string + option Z) :=
  match e with
  | EImshow name _ => Some (inl name)
  | EWaitKey d => Some (inr (Some d))
  | EDestroyAllWindows => Some (inr None)
  | _ => None
  end.

Fixpoint filter_map {A B : Type} (f : A -> option B) (l : list A) : list B :=
  match l with
  | [] => []
  | a :: l' =>
      match f a with
      | Some b => b :: filter_map f l'
      | None => filter_map f l'
      end
  end.

Definition display_steps (w : World) : list (string + option Z) :=
  filter_map display_step (trace w).

(** The size arguments of the GMS calls of a run, in call order. *)
Definition gms_sizes (w : World) : list (Size * Size) :=
  filter_map (fun e => match e with
                       | EMatchGMS s1 s2 _ _ _ _ _ => Some (s1, s2)
                       | _ => None
                       end) (trace w).

(** The candidate list and the two flags of the GMS calls of a run, in call
    order. *)
Definition gms_inputs (w : World) : list (list DMatch * bool * bool) :=
  filter_map (fun e => match e with
                       | EMatchGMS _ _ _ _ ms r s => Some (ms, r, s)
                       | _ => None
                       end) (trace w).

Section Observations.

Context {extractor : Extractor} {matcher : DescriptorMatcher}.

(** Keypoint count of each extraction of a run, in call order. *)
Definition keypoint_counts (w : World) : list nat :=
  filter_map (fun e => match e with
                       | EDetectAndCompute d img =>
                           Some (List.length
                                   (fst (Feature2D_detectAndCompute d img)))
                       | _ => None
                       end) (trace w).

(** Size of the candidate list of each matcher call of a run. *)
Definition candidate_counts (w : World) : list nat :=
  filter_map (fun e => match e with
                       | EMatch m q t =>
                           Some (List.length (BFMatcher_match m q t))
                       | _ => None
                       end) (trace w).

(** The candidate lists the matcher returned during a run. *)
Definition candidate_lists (w : World) : list (list DMatch) :=
  filter_map (fun e => match e with
                       | EMatch m q t => Some (BFMatcher_match m q t)
                       | _ => None
                       end) (trace w).

End Observations.

(** ** Sample collaborators and inputs *)

(** An extractor that reports one keypoint per image row, up to the feature
    budget, with a one-byte descriptor each. *)
Definition sample_count (d : Feature2D) (img : Mat) : nat :=
  Z.to_nat (Z.min (feature_budget d) (rows img)).

#[export] Instance sample_extractor : Extractor :=
  {| Feature2D_detectAndCompute := fun d img =>
       (map (fun i => mkKeyPoint 0 (Z.of_nat i) 0 0 0 0 0)
            (seq 0 (sample_count d img)),
        mkMat (Z.of_nat (sample_count d img)) 1
              (Some (map Z.of_nat (seq 0 (sample_count d img))))) |}.

(** A filter that keeps the candidates within a distance that grows with the
    enabled options. *)
#[export] Instance sample_gms : GMSProvider :=
  {| matchGMS := fun _ _ _ _ ms rotation scale =>
       filter (fun m => distance m <=?
                        (if rotation then 1 else 0) + (if scale then 1 else 0))
              ms |}.

(** A renderer that only sizes the composite. *)
#[export] Instance sample_renderer : Renderer :=
  {| drawMatches := fun img1 _ img2 _ _ =>
       mkMat (Z.max (rows img1) (rows img2)) (cols img1 + cols img2)
             (Some []) |}.

Definition sample_dog01 : Mat := mkMat 2 3 (Some [1; 2; 3; 4; 5; 6]).
Definition sample_dog02 : Mat :=
  mkMat 4 5 (Some [0; 0; 0; 0; 0; 1; 1; 1; 1; 1;
                   2; 2; 2; 2; 2; 3; 3; 3; 3; 3]).

(** Both files present. *)
Definition fs_dogs (path : string) : Mat :=
  if String.eqb path "dog01.jpg" then sample_dog01
  else if String.eqb path "dog02.jpg" then sample_dog02
  else Mat_default.

(** Both files present, among others. *)
Definition fs_dogs_and_more (path : string) : Mat :=
  if String.eqb path "cat.jpg" then mkMat 1 1 (Some [7])
  else fs_dogs path.

(** Only [dog02.jpg] present. *)
Definition fs_first_missing (path : string) : Mat :=
  if String.eqb path "dog02.jpg" then sample_dog02 else Mat_default.

(** One query descriptor, no train descriptor. *)
Definition one_descriptor : Mat := mkMat 1 1 (Some [5]).
Definition no_descriptor : Mat := Mat_default.

(** The driver over the sample collaborators, and the worlds two of its runs
    end in: one over the two files alone with three presses of the return
    key, one over a directory with a further file and four other keys. *)
Definition sample_main : IO Z :=
  @main sample_extractor spec_matcher sample_gms sample_renderer.

Definition sample_world : World :=
  final (sample_main (boot fs_dogs [13; 13; 13])).

Definition sample_world_other : World :=
  final (sample_main (boot fs_dogs_and_more [27; 32; 10; 99])).

(** ** The pipeline as values and calls

    What the driver computes, read as plain values, and the calls each of
    its steps makes, read as lists of events.  The properties of the runs
    compare the traces and streams of the monadic program with these. *)

(** The line [detectAndCompute] prints, and the line the GMS wrapper prints
    for a filtered list of [n] matches. *)
Definition DETECTING_LINE : string :=
  ("Detecting keypoints for input image" ++ CRLF)%string.

Definition size_line (n : nat) : string :=
  ("MatchGMS Size: " ++ show_size_t n ++ endl)%string.

(** The three calls of [displayMatches]. *)
Definition show_calls (name : string) (img : Mat) : list Event :=
  [ENamedWindow name WINDOW_NORMAL;
   EResizeWindow name (cols img) (rows img);
   EImshow name img].

(** The windows a run created, in creation order. *)
Definition created_windows (w : World) : list string :=
  filter_map (fun e => match e with
                       | ENamedWindow name _ => Some name
                       | _ => None
                       end) (trace w).

Section PipelineValues.

Context {extractor : Extractor} {matcher : DescriptorMatcher}
        {gms : GMSProvider} {renderer : Renderer}.

(** The calls of [gmsCreateDisplayMatches], in order: the GMS filter, the
    renderer on the filtered list, the display of the composite, the
    wait. *)
Definition wrapper_calls (image1 image2 : Mat) (kp1 kp2 : list KeyPoint)
    (matchesAll : list DMatch) (windowName : string) (rotation scale : bool)
  : list Event :=
  let matchesGMS :=
    matchGMS (Mat_size image1) (Mat_size image1) kp1 kp2 matchesAll
             rotation scale in
  let imageMatches := drawMatches image1 kp1 image2 kp2 matchesGMS in
  [EMatchGMS (Mat_size image1) (Mat_size image1) kp1 kp2 matchesAll
             rotation scale;
   EDrawMatches image1 kp1 image2 kp2 matchesGMS]
  ++ show_calls windowName imageMatches ++ [EWaitKey 0].

(** Keypoints and descriptors of an image, as [main] extracts them. *)
Definition extracted (image : Mat) : list KeyPoint * Mat :=
  Feature2D_detectAndCompute (ORB_create MAX_FEATURES) image.

(** The candidate list of [main]: descriptors of the first image as query,
    of the second as train. *)
Definition candidates (dog01 dog02 : Mat) : list DMatch :=
  BFMatcher_match (BFMatcher_create NORM_HAMMING false)
                  (snd (extracted dog01)) (snd (extracted dog02)).

(** The filtered list of one configuration, as the wrapper asks for it. *)
Definition gms_output (dog01 dog02 : Mat) (rotation scale : bool)
  : list DMatch :=
  matchGMS (Mat_size dog01) (Mat_size dog01)
           (fst (extracted dog01)) (fst (extracted dog02))
           (candidates dog01 dog02) rotation scale.

(** The calls of one configuration in [main]. *)
Definition configuration_calls (dog01 dog02 : Mat) (windowName : string)
    (rotation scale : bool) : list Event :=
  wrapper_calls dog01 dog02 (fst (extracted dog01)) (fst (extracted dog02))
                (candidates dog01 dog02) windowName rotation scale.

End PipelineValues.

(** The GMS window names, in the order [main] uses them. *)
Definition GMS_WINDOW_NAMES : list string :=
  [GMS_NO_RS_MATCHES_WINDOW_NAME; GMS_RS_MATCHES_WINDOW_NAME;
   GMS_NRS_MATCHES_WINDOW_NAME].

(** * Properties *)

(** ** Image validity *)

(** C4.  [isValidImage] answers true exactly for an image whose two
    dimensions are non-zero and whose pixel storage is allocated. *)
Theorem isValidImage_iff_dimensions_and_storage :
  forall image : Mat,
    isValidImage image = true <->
    (rows image <> 0 /\ cols image <> 0) /\ data image <> None.
Proof.
  intros [r c d]; unfold isValidImage, Mat_empty, Mat_total; simpl.
  destruct d as [bytes|]; simpl.
  - rewrite negb_true_iff, Z.eqb_neq. split.
    + intros H. repeat split; try discriminate; intros ->; apply H; lia.
    + intros [[Hr Hc] _] H. apply Z.mul_eq_0 in H. tauto.
  - split; [discriminate | intros [_ H]; contradiction].
Qed.

Lemma Mat_default_invalid : isValidImage Mat_default = false.
Proof. reflexivity. Qed.

(** ** Detector factory *)

(** C6.  The factory answers the ORB tag with an extractor built for the
    feature budget [MAX_FEATURES], which is 10000, and every other tag with
    the null pointer. *)
Theorem createDetector_orb_or_null :
  forall detectorType : DETECTOR_TYPE,
    (detectorType = ORB ->
     createDetector detectorType = Some (ORB_create MAX_FEATURES) /\
     feature_budget (ORB_create MAX_FEATURES) = 10000) /\
    (detectorType <> ORB -> createDetector detectorType = None).
Proof.
  intros t; unfold createDetector; split.
  - intros ->. split; reflexivity.
  - intros H. apply Z.eqb_neq in H. now rewrite H.
Qed.

Lemma createDetector_orb_or_null_witness :
  (7 <> ORB /\ createDetector 7 = None) /\
  createDetector ORB = Some (ORB_create MAX_FEATURES).
Proof.
  split.
  - split; [discriminate |].
    apply (proj2 (createDetector_orb_or_null 7)); discriminate.
  - apply (proj1 (createDetector_orb_or_null ORB)); reflexivity.
Defined.

Lemma createDetector_some_inv :
  forall t d, createDetector t = Some d -> t = ORB /\ d = ORB_create MAX_FEATURES.
Proof.
  intros t d; unfold createDetector.
  destruct (t =? ORB) eqn:E; [| discriminate].
  intros [= <-]. apply Z.eqb_eq in E. now split.
Qed.

(** ** Feature extraction *)

Section ExtractionProperties.

Context {extractor : Extractor}.

(** C7.  When the factory yields the null pointer, [detectAndCompute]
    returns false, its two output parameters keep the values they came
    with (empty, when they came empty), and the world is untouched: no
    call reaches an extractor and nothing is printed. *)
Theorem detectAndCompute_null_detector :
  forall (detectorType : DETECTOR_TYPE) (image : Mat)
         (keyPoints : list KeyPoint) (descriptors : Mat) (w : World),
    createDetector detectorType = None ->
    detectAndCompute detectorType image keyPoints descriptors w
    = Returned (false, keyPoints, descriptors) w.
Proof.
  intros t image kps desc w H. unfold detectAndCompute. now rewrite H.
Qed.

(** With a detector, the extractor is called once on the image and its
    results are handed back. *)
Lemma detectAndCompute_orb :
  forall (image : Mat) (keyPoints : list KeyPoint) (descriptors : Mat)
         (w : World),
    detectAndCompute ORB image keyPoints descriptors w
    = Returned (true,
                fst (Feature2D_detectAndCompute (ORB_create MAX_FEATURES) image),
                snd (Feature2D_detectAndCompute (ORB_create MAX_FEATURES) image))
               (record (EDetectAndCompute (ORB_create MAX_FEATURES) image)
                  (put_cout ("Detecting keypoints for input image" ++ CRLF)
                            w)).
Proof. reflexivity. Qed.

End ExtractionProperties.

Lemma detectAndCompute_null_detector_witness :
  createDetector 7 = None /\
  @detectAndCompute sample_extractor 7 sample_dog01 [] Mat_default
    (boot fs_dogs [])
  = Returned (false, [], Mat_default) (boot fs_dogs []).
Proof.
  split; [reflexivity |].
  apply (@detectAndCompute_null_detector sample_extractor); reflexivity.
Defined.

(** ** Brute-force matching *)

Section NearestRow.

Variables (q : list Z) (train : Mat).

(** The scan keeps a best row as soon as it has one, and that row is one
    of the scanned rows or the row it started from. *)
Lemma nearest_found :
  forall (js : list nat) (best : option (nat * Z)),
    js <> [] \/ best <> None ->
    exists j d,
      nearest q train js best = Some (j, d) /\
      (In j js \/ exists d0, best = Some (j, d0)).
Proof.
  induction js as [|j js IH]; intros best H; simpl.
  - destruct H as [H|H]; [contradiction |].
    destruct best as [[j d]|]; [| contradiction].
    exists j, d. split; [reflexivity | right; now exists d].
  - set (d := hamming q (Mat_row train j)).
    set (best' := match best with
                  | None => Some (j, d)
                  | Some (_, bd) => if d <? bd then Some (j, d) else best
                  end).
    assert (Hb : best' <> None).
    { subst best'. destruct best as [[j0 bd]|]; [| discriminate].
      destruct (d <? bd); discriminate. }
    destruct (IH best' (or_intror Hb)) as (j1 & d1 & E & Hin).
    exists j1, d1. split; [exact E |].
    destruct Hin as [Hin | [d0 Hd0]]; [left; now right |].
    subst best'. destruct best as [[j0 bd]|].
    + destruct (d <? bd).
      * injection Hd0 as <- _. left; now left.
      * injection Hd0 as <- <-. right; now exists bd.
    + injection Hd0 as <- _. left; now left.
Qed.

Lemma nearest_nothing_to_scan : nearest q train [] None = None.
Proof. reflexivity. Qed.

End NearestRow.

(** With at least one train row, a query row gets exactly one match, which
    carries its own index and the index of a train row. *)
Lemma match_row_single :
  forall (query train : Mat) (i : nat),
    0 < rows train ->
    exists j d,
      match_row query train i = [mkDMatch (Z.of_nat i) (Z.of_nat j) 0 d] /\
      0 <= Z.of_nat j < rows train.
Proof.
  intros query train i Hpos. unfold match_row.
  assert (Hne : seq 0 (descriptorCount train) <> []).
  { unfold descriptorCount.
    destruct (Z.to_nat (rows train)) eqn:E; [lia | discriminate]. }
  destruct (nearest_found (Mat_row query i) train _ None (or_introl Hne))
    as (j & d & E & Hin).
  rewrite E. exists j, d. split; [reflexivity |].
  destruct Hin as [Hin | [d0 Hd0]]; [| discriminate].
  apply in_seq in Hin. unfold descriptorCount in Hin. lia.
Qed.

(** Without train rows no query row gets a match. *)
Lemma match_row_no_train :
  forall (query train : Mat) (i : nat),
    rows train <= 0 -> match_row query train i = [].
Proof.
  intros query train i H. unfold match_row, descriptorCount.
  replace (Z.to_nat (rows train)) with 0%nat by lia. reflexivity.
Qed.

Lemma BFMatcher_match_spec_rows :
  forall (m : BFMatcher) (query train : Mat) (idxs : list nat),
    0 < rows train ->
    map queryIdx (flat_map (match_row query train) idxs) = map Z.of_nat idxs /\
    Forall (fun dm => 0 <= trainIdx dm < rows train)
           (flat_map (match_row query train) idxs).
Proof.
  intros m query train idxs Hpos.
  induction idxs as [|i idxs [IHq IHt]]; simpl.
  - split; [reflexivity | constructor].
  - destruct (match_row_single query train i Hpos) as (j & d & E & Hj).
    rewrite E; simpl. split.
    + now rewrite IHq.
    + constructor; [exact Hj | exact IHt].
Qed.

Lemma BFMatcher_match_spec_no_train :
  forall (m : BFMatcher) (query train : Mat),
    rows train <= 0 -> BFMatcher_match_spec m query train = [].
Proof.
  intros m query train H. unfold BFMatcher_match_spec.
  induction (seq 0 (descriptorCount query)) as [|i idxs IH]; simpl.
  - reflexivity.
  - now rewrite (match_row_no_train query train i H), IH.
Qed.

(** No list of matches at all meets the three requirements of the claim
    for one query descriptor and no train descriptor: the statement cannot
    hold of any matcher on such an input. *)
Lemma no_match_list_for_empty_train :
  forall ms : list DMatch,
    List.length ms = descriptorCount one_descriptor ->
    Forall (fun dm => 0 <= trainIdx dm < rows no_descriptor) ms ->
    False.
Proof.
  intros [|dm ms] Hlen Hall.
  - discriminate Hlen.
  - inversion Hall as [|? ? Hdm _]. simpl in Hdm. lia.
Qed.

(** C3, as the code has it.  When the train matrix has at least one row,
    or the query matrix has none, [computeMatches] returns one match per
    query row, in row order: the list is as long as the query descriptor
    count, entry [i] has query index [i], and every train index is the
    index of a train row. *)
Theorem computeMatches_one_per_query_row :
  forall (Q T : Mat) (w : World),
    0 < rows T \/ rows Q <= 0 ->
    exists (ms : list DMatch) (w' : World),
      @computeMatches spec_matcher Q T w = Returned ms w' /\
      List.length ms = descriptorCount Q /\
      map queryIdx ms = map Z.of_nat (seq 0 (descriptorCount Q)) /\
      Forall (fun dm => 0 <= queryIdx dm < Z.of_nat (descriptorCount Q) /\
                        0 <= trainIdx dm < rows T) ms.
Proof.
  intros Q T w [Hpos | Hnone].
  - destruct (BFMatcher_match_spec_rows (BFMatcher_create NORM_HAMMING false)
                Q T (seq 0 (descriptorCount Q)) Hpos) as [Hq Ht].
    eexists; eexists; split; [reflexivity |].
    change (BFMatcher_match (BFMatcher_create NORM_HAMMING false) Q T)
      with (flat_map (match_row Q T) (seq 0 (descriptorCount Q))).
    set (ms := flat_map (match_row Q T) (seq 0 (descriptorCount Q))) in *.
    assert (Hlen : List.length ms = descriptorCount Q).
    { rewrite <- (length_map queryIdx), Hq, length_map. apply length_seq. }
    repeat split; [exact Hlen | exact Hq |].
    rewrite Forall_forall in Ht |- *. intros dm Hin. split; [| now apply Ht].
    assert (Hi : In (queryIdx dm) (map Z.of_nat (seq 0 (descriptorCount Q)))).
    { rewrite <- Hq. now apply in_map. }
    apply in_map_iff in Hi. destruct Hi as (i & <- & Hi).
    apply in_seq in Hi. lia.
  - eexists; eexists; split; [reflexivity |].
    change (BFMatcher_match (BFMatcher_create NORM_HAMMING false) Q T)
      with (flat_map (match_row Q T) (seq 0 (descriptorCount Q))).
    assert (E : descriptorCount Q = 0%nat) by (unfold descriptorCount; lia).
    rewrite E; simpl. repeat split; constructor.
Qed.

(** The condition is the exact one: with a query row and no train row the
    list is empty, hence shorter than the query descriptor count. *)
Lemma computeMatches_short_without_train :
  forall (Q T : Mat) (w : World),
    rows T <= 0 -> 0 < rows Q ->
    returned (@computeMatches spec_matcher Q T w) = Some [] /\
    (0 < descriptorCount Q)%nat.
Proof.
  intros Q T w HT HQ. split.
  - unfold computeMatches, bind, BFMatcher_call, ret; simpl.
    now rewrite BFMatcher_match_spec_no_train.
  - unfold descriptorCount. lia.
Qed.

Lemma computeMatches_one_per_query_row_witness :
  ((0 < rows sample_dog02 \/ rows sample_dog01 <= 0) /\
   exists (ms : list DMatch) (w' : World),
     @computeMatches spec_matcher sample_dog01 sample_dog02 (boot fs_dogs [])
     = Returned ms w' /\
     List.length ms = descriptorCount sample_dog01 /\
     map queryIdx ms = map Z.of_nat (seq 0 (descriptorCount sample_dog01)) /\
     Forall (fun dm =>
               0 <= queryIdx dm < Z.of_nat (descriptorCount sample_dog01) /\
               0 <= trainIdx dm < rows sample_dog02) ms) /\
  ((0 < rows Mat_default \/ rows Mat_default <= 0) /\
   exists (ms : list DMatch) (w' : World),
     @computeMatches spec_matcher Mat_default Mat_default (boot fs_dogs [])
     = Returned ms w' /\
     List.length ms = descriptorCount Mat_default /\
     map queryIdx ms = map Z.of_nat (seq 0 (descriptorCount Mat_default)) /\
     Forall (fun dm =>
               0 <= queryIdx dm < Z.of_nat (descriptorCount Mat_default) /\
               0 <= trainIdx dm < rows Mat_default) ms).
Proof.
  split.
  - split; [left; reflexivity |].
    apply (computeMatches_one_per_query_row sample_dog01 sample_dog02
             (boot fs_dogs [])).
    left; reflexivity.
  - split; [right; simpl; lia |].
    apply (computeMatches_one_per_query_row Mat_default Mat_default
             (boot fs_dogs [])).
    right; simpl; lia.
Defined.

(** C3, as stated, fails where the train matrix has no row: for one query
    descriptor the matcher returns no match, so the list is shorter than
    the query descriptor count. *)
Lemma computeMatches_empty_train_counterexample :
  returned (@computeMatches spec_matcher one_descriptor no_descriptor
              (boot fs_dogs [])) = Some [] /\
  descriptorCount one_descriptor = 1%nat.
Proof. split; reflexivity. Qed.

(** ** The GMS wrapper *)

Lemma filter_map_app :
  forall (A B : Type) (f : A -> option B) (l1 l2 : list A),
    filter_map f (l1 ++ l2) = filter_map f l1 ++ filter_map f l2.
Proof.
  intros A B f l1 l2. induction l1 as [|a l1 IH]; simpl.
  - reflexivity.
  - destruct (f a); simpl; now rewrite IH.
Qed.

Section WrapperProperties.

Context {gms : GMSProvider} {renderer : Renderer}.

(** Whatever the two images, the wrapper makes one GMS call, and both
    size arguments of that call are the size of the first image. *)
Lemma gmsCreateDisplayMatches_sizes :
  forall (image1 image2 : Mat) (kp1 kp2 : list KeyPoint)
         (matchesAll : list DMatch) (windowName : string)
         (rotation scale : bool) (w : World),
    gms_sizes (final (gmsCreateDisplayMatches image1 image2 kp1 kp2
                        matchesAll windowName rotation scale w))
    = gms_sizes w ++ [(Mat_size image1, Mat_size image1)].
Proof.
  intros. unfold gms_sizes, trace.
  assert (E : exists tl,
             events (final (gmsCreateDisplayMatches image1 image2 kp1 kp2
                              matchesAll windowName rotation scale w))
             = tl ++ EMatchGMS (Mat_size image1) (Mat_size image1) kp1 kp2
                       matchesAll rotation scale :: events w
             /\ filter_map (fun e => match e with
                                     | EMatchGMS s1 s2 _ _ _ _ _ =>
                                         Some (s1, s2)
                                     | _ => None
                                     end) (rev tl) = []).
  { unfold gmsCreateDisplayMatches, displayMatches, bind, matchGMS_call,
      drawMatches_call, cout_write, namedWindow, resizeWindow, imshow,
      waitKey, ret; simpl.
    destruct (keys w); simpl; eexists (_ :: _ :: _ :: _ :: _ :: []);
      split; reflexivity. }
  destruct E as (tl & -> & Htl).
  rewrite rev_app_distr; simpl.
  rewrite <- app_assoc, !filter_map_app, Htl; simpl.
  reflexivity.
Qed.

(** C1, evaluated on two images of different sizes.  The GMS call of the
    wrapper receives the size of the first image in both size arguments;
    the size of the second image, which differs, is not passed. *)
Theorem gmsCreateDisplayMatches_passes_first_size_twice :
  forall (kp1 kp2 : list KeyPoint) (matchesAll : list DMatch)
         (windowName : string) (rotation scale : bool) (ks : list Z),
    gms_sizes (final (gmsCreateDisplayMatches sample_dog01 sample_dog02
                        kp1 kp2 matchesAll windowName rotation scale
                        (boot fs_dogs ks)))
    = [(mkSize 3 2, mkSize 3 2)] /\
    Mat_size sample_dog01 = mkSize 3 2 /\
    Mat_size sample_dog02 = mkSize 5 4.
Proof.
  intros. rewrite gmsCreateDisplayMatches_sizes. repeat split.
Qed.

End WrapperProperties.

(** ** The driver *)

(** Symbolic runs of the driver in a hypothesis [H], an equation on
    [main (boot fs ks)].  [unfold_run] evaluates the run, leaving the
    validity tests and the printed sizes folded; [run_main] then splits on
    the validity of the two images and on how many key presses are
    pending. *)
Ltac unfold_run H :=
  cbv -[isValidImage show_size_t List.length] in H.

Ltac run_main H fs ks :=
  unfold_run H;
  destruct (isValidImage (fs "dog01.jpg"%string)) eqn:?Hvalid1;
  destruct (isValidImage (fs "dog02.jpg"%string)) eqn:?Hvalid2;
  try discriminate H;
  try (destruct ks as [|?k [|?k [|?k ?ks]]]; try discriminate H).

Section DriverProperties.

Context {extractor : Extractor} {matcher : DescriptorMatcher}
        {gms : GMSProvider} {renderer : Renderer}.

(** A run that returns success had two valid images and consumed three
    key presses. *)
Lemma main_success_inv :
  forall (fs : string -> Mat) (ks : list Z) (w : World),
    main (boot fs ks) = Returned EXIT_SUCCESS w ->
    isValidImage (fs "dog01.jpg"%string) = true /\
    isValidImage (fs "dog02.jpg"%string) = true /\
    exists k1 k2 k3, ks = k1 :: k2 :: k3 :: keys w.
Proof.
  intros fs ks w H. run_main H fs ks.
  injection H as <-. repeat split. now exists k, k0, k1.
Qed.

(** A run that returns anything else had an invalid image, returned
    [EXIT_FAILURE] and wrote the image diagnostic: with the ORB tag
    hard-wired in [main], the detector diagnostic is never written. *)
Lemma main_failure_inv :
  forall (fs : string -> Mat) (ks : list Z) (c : Z) (w : World),
    main (boot fs ks) = Returned c w ->
    c <> EXIT_SUCCESS ->
    (isValidImage (fs "dog01.jpg"%string) = false \/
     isValidImage (fs "dog02.jpg"%string) = false) /\
    c = EXIT_FAILURE /\ cerr w = MSG_UNABLE_TO_LOAD.
Proof.
  intros fs ks c w H Hc. run_main H fs ks;
    injection H as <- <-; try (exfalso; now apply Hc);
    repeat split; auto.
Qed.

(** A fatal run ends with the two source-image windows still in the
    registry: nothing closes them on the error path. *)
Lemma fatal_run_leaves_source_windows :
  forall (fs : string -> Mat) (ks : list Z) (c : Z) (w : World),
    main (boot fs ks) = Returned c w ->
    c <> EXIT_SUCCESS ->
    windows w = ["Dog01 Image"%string; "Dog02 Image"%string] /\
    ~ In EDestroyAllWindows (trace w).
Proof.
  intros fs ks c w H Hc. run_main H fs ks;
    injection H as <- <-; try (exfalso; now apply Hc);
    (split; [reflexivity |]);
    cbv; intuition discriminate.
Qed.

(** A successful run ends with an empty registry. *)
Lemma successful_run_closes_windows :
  forall (fs : string -> Mat) (ks : list Z) (w : World),
    main (boot fs ks) = Returned EXIT_SUCCESS w -> windows w = [].
Proof.
  intros fs ks w H. run_main H fs ks. now injection H as <-.
Qed.

(** C2, evaluated where [dog01.jpg] is missing.  The run writes the
    one-line diagnostic and returns [EXIT_FAILURE], and the two
    source-image windows, opened before the validity check, are still
    open when it returns. *)
Theorem fatal_run_first_missing :
  forall ks : list Z,
    exists w : World,
      main (boot fs_first_missing ks) = Returned EXIT_FAILURE w /\
      cerr w = MSG_UNABLE_TO_LOAD /\
      line_count (cerr w) = 1%nat /\
      windows w = ["Dog01 Image"%string; "Dog02 Image"%string].
Proof.
  intros ks. eexists. split; [reflexivity |]. repeat split.
Qed.

(** C5.  If either image is invalid, the run returns [EXIT_FAILURE]; the
    standard error stream holds exactly the one-line diagnostic, which
    names [dog01.jpg] and [dog02.jpg]; and the trace has no extraction,
    no matching and no GMS call.  Nothing is written to the standard
    output. *)
Theorem invalid_image_is_fatal :
  forall (fs : string -> Mat) (ks : list Z),
    isValidImage (fs "dog01.jpg"%string) = false \/
    isValidImage (fs "dog02.jpg"%string) = false ->
    exists w : World,
      main (boot fs ks) = Returned EXIT_FAILURE w /\
      cerr w = MSG_UNABLE_TO_LOAD /\
      line_count (cerr w) = 1%nat /\
      mentions "dog01.jpg" (cerr w) = true /\
      mentions "dog02.jpg" (cerr w) = true /\
      cout w = EmptyString /\
      filter is_extraction (trace w) = [] /\
      filter is_matching (trace w) = [] /\
      filter is_gms (trace w) = [].
Proof.
  intros fs ks Hinv.
  assert (E : negb (isValidImage (fs "dog01.jpg"%string))
              || negb (isValidImage (fs "dog02.jpg"%string)) = true).
  { destruct Hinv as [-> | ->]; [reflexivity | apply orb_true_r]. }
  unfold main, bind, imread; simpl.
  unfold displayMatches, bind, namedWindow, resizeWindow, imshow; simpl.
  rewrite E.
  eexists. split; [reflexivity |]. repeat split.
Qed.

(** C8.  In a successful run the matcher is called once, and the three
    GMS calls receive the list it returned, with the flags (false,
    false), (true, true) and (false, true) in this order. *)
Theorem candidates_computed_once_and_shared :
  forall (fs : string -> Mat) (ks : list Z) (w : World),
    main (boot fs ks) = Returned EXIT_SUCCESS w ->
    List.length (filter is_matching (trace w)) = 1%nat /\
    exists matchesAll : list DMatch,
      candidate_lists w = [matchesAll] /\
      gms_inputs w = [(matchesAll, false, false);
                      (matchesAll, true, true);
                      (matchesAll, false, true)].
Proof.
  intros fs ks w H. run_main H fs ks. injection H as <-.
  split; [reflexivity |]. eexists. split; reflexivity.
Qed.

(** In a successful run every GMS call gets the size of the first image
    twice. *)
Lemma main_gms_sizes :
  forall (fs : string -> Mat) (ks : list Z) (w : World),
    main (boot fs ks) = Returned EXIT_SUCCESS w ->
    let s := Mat_size (fs "dog01.jpg"%string) in
    gms_sizes w = [(s, s); (s, s); (s, s)].
Proof.
  intros fs ks w H. run_main H fs ks. now injection H as <-.
Qed.

(** C10.  In a successful run, each of the three GMS windows is shown and
    then waited on, the wait after the third included, and only then are
    the windows closed; the three waits consumed three key presses of the
    user. *)
Theorem wait_after_each_configuration :
  forall (fs : string -> Mat) (ks : list Z) (w : World),
    main (boot fs ks) = Returned EXIT_SUCCESS w ->
    display_steps w
    = [inl "Dog01 Image"%string; inl "Dog02 Image"%string;
       inl GMS_NO_RS_MATCHES_WINDOW_NAME; inr (Some 0);
       inl GMS_RS_MATCHES_WINDOW_NAME; inr (Some 0);
       inl GMS_NRS_MATCHES_WINDOW_NAME; inr (Some 0);
       inr None] /\
    exists k1 k2 k3 : Z, ks = k1 :: k2 :: k3 :: keys w.
Proof.
  intros fs ks w H. split.
  - run_main H fs ks. now injection H as <-.
  - now apply main_success_inv in H.
Qed.

(** With valid images and fewer than three key presses the run stays
    blocked in a wait: it never closes a window and never returns. *)
Lemma main_blocks_without_key_press :
  forall (fs : string -> Mat) (ks : list Z),
    isValidImage (fs "dog01.jpg"%string) = true ->
    isValidImage (fs "dog02.jpg"%string) = true ->
    (List.length ks < 3)%nat ->
    exists w : World,
      main (boot fs ks) = Blocked w /\
      ~ In EDestroyAllWindows (trace w) /\
      last (display_steps w) (inr None) = inr (Some 0).
Proof.
  intros fs ks V1 V2 Hlen.
  destruct (main (boot fs ks)) as [c w|w] eqn:H.
  - exfalso. run_main H fs ks; simpl in Hlen; lia.
  - exists w. split; [reflexivity |].
    run_main H fs ks; try (simpl in Hlen; lia);
      injection H as <-; (split; [cbv; intuition discriminate | reflexivity]).
Qed.

(** With valid images and three key presses the run returns success. *)
Lemma main_succeeds :
  forall (fs : string -> Mat) (k1 k2 k3 : Z) (ks : list Z),
    isValidImage (fs "dog01.jpg"%string) = true ->
    isValidImage (fs "dog02.jpg"%string) = true ->
    exists w : World,
      main (boot fs (k1 :: k2 :: k3 :: ks)) = Returned EXIT_SUCCESS w /\
      keys w = ks.
Proof.
  intros fs k1 k2 k3 ks V1 V2.
  destruct (main (boot fs (k1 :: k2 :: k3 :: ks))) as [c w|w] eqn:H;
    unfold_run H; rewrite V1, V2 in H; [| discriminate H].
  injection H as <- <-. eexists. split; reflexivity.
Qed.

End DriverProperties.

(** ** Determinism across runs *)

Section Determinism.

Context {extractor : Extractor} {matcher : DescriptorMatcher}
        {gms : GMSProvider} {renderer : Renderer}.

(** What a returned run leaves behind is a function of the two decoded
    images alone: the rest of the directory and the keys the user chose
    to press do not show in the exit code, the streams or the trace. *)
Lemma returned_runs_agree :
  forall (fs1 fs2 : string -> Mat) (ks1 ks2 : list Z) (c1 c2 : Z)
         (w1 w2 : World),
    fs1 "dog01.jpg"%string = fs2 "dog01.jpg"%string ->
    fs1 "dog02.jpg"%string = fs2 "dog02.jpg"%string ->
    main (boot fs1 ks1) = Returned c1 w1 ->
    main (boot fs2 ks2) = Returned c2 w2 ->
    c1 = c2 /\ cout w1 = cout w2 /\ cerr w1 = cerr w2 /\
    events w1 = events w2.
Proof.
  intros fs1 fs2 ks1 ks2 c1 c2 w1 w2 E1 E2 H1 H2.
  unfold_run H1. rewrite E1, E2 in H1.
  run_main H2 fs2 ks2; injection H2 as <- <-;
    destruct ks1 as [|a [|b [|c ks1]]]; try discriminate H1;
    injection H1 as <- <-; repeat split.
Qed.

(** C9.  Two runs that return, over directories that hold the same two
    images, agree on the keypoint counts, on the candidate count and on
    the printed GMS sizes, whatever else the directories hold and
    whichever keys the user pressed. *)
Theorem runs_on_identical_images_agree :
  forall (fs1 fs2 : string -> Mat) (ks1 ks2 : list Z) (c1 c2 : Z)
         (w1 w2 : World),
    fs1 "dog01.jpg"%string = fs2 "dog01.jpg"%string ->
    fs1 "dog02.jpg"%string = fs2 "dog02.jpg"%string ->
    main (boot fs1 ks1) = Returned c1 w1 ->
    main (boot fs2 ks2) = Returned c2 w2 ->
    keypoint_counts w1 = keypoint_counts w2 /\
    candidate_counts w1 = candidate_counts w2 /\
    printed_gms_sizes w1 = printed_gms_sizes w2.
Proof.
  intros fs1 fs2 ks1 ks2 c1 c2 w1 w2 E1 E2 H1 H2.
  destruct (returned_runs_agree fs1 fs2 ks1 ks2 c1 c2 w1 w2 E1 E2 H1 H2)
    as (_ & Hout & _ & Hev).
  unfold keypoint_counts, candidate_counts, printed_gms_sizes, trace.
  now rewrite Hout, Hev.
Qed.

End Determinism.

(** ** The properties on sample runs *)

Lemma sample_run_returns :
  sample_main (boot fs_dogs [13; 13; 13]) = Returned EXIT_SUCCESS sample_world.
Proof. vm_compute; reflexivity. Qed.

Lemma sample_run_other_returns :
  sample_main (boot fs_dogs_and_more [27; 32; 10; 99])
  = Returned EXIT_SUCCESS sample_world_other.
Proof. vm_compute; reflexivity. Qed.

(** The sample run prints three sizes for two and four keypoints and two
    candidates. *)
Lemma sample_run_observations :
  keypoint_counts sample_world = [2; 4]%nat /\
  candidate_counts sample_world = [2]%nat /\
  printed_gms_sizes sample_world
  = ["MatchGMS Size: 2"; "MatchGMS Size: 2"; "MatchGMS Size: 2"]%string.
Proof. repeat split; vm_compute; reflexivity. Qed.

Lemma invalid_image_is_fatal_witness :
  (isValidImage (fs_first_missing "dog01.jpg"%string) = false \/
   isValidImage (fs_first_missing "dog02.jpg"%string) = false) /\
  exists w : World,
    sample_main (boot fs_first_missing [13]) = Returned EXIT_FAILURE w /\
    cerr w = MSG_UNABLE_TO_LOAD /\
    line_count (cerr w) = 1%nat /\
    mentions "dog01.jpg" (cerr w) = true /\
    mentions "dog02.jpg" (cerr w) = true /\
    cout w = EmptyString /\
    filter is_extraction (trace w) = [] /\
    filter is_matching (trace w) = [] /\
    filter is_gms (trace w) = [].
Proof.
  split; [left; reflexivity |].
  apply (@invalid_image_is_fatal sample_extractor spec_matcher sample_gms
           sample_renderer fs_first_missing [13]).
  left; reflexivity.
Defined.

Lemma candidates_computed_once_and_shared_witness :
  sample_main (boot fs_dogs [13; 13; 13]) = Returned EXIT_SUCCESS sample_world /\
  List.length (filter is_matching (trace sample_world)) = 1%nat /\
  exists matchesAll : list DMatch,
    candidate_lists sample_world = [matchesAll] /\
    gms_inputs sample_world = [(matchesAll, false, false);
                               (matchesAll, true, true);
                               (matchesAll, false, true)].
Proof.
  split; [vm_compute; reflexivity |].
  apply (@candidates_computed_once_and_shared sample_extractor spec_matcher
           sample_gms sample_renderer fs_dogs [13; 13; 13] sample_world).
  vm_compute; reflexivity.
Defined.

Lemma wait_after_each_configuration_witness :
  sample_main (boot fs_dogs [13; 13; 13]) = Returned EXIT_SUCCESS sample_world /\
  display_steps sample_world
  = [inl "Dog01 Image"%string; inl "Dog02 Image"%string;
     inl GMS_NO_RS_MATCHES_WINDOW_NAME; inr (Some 0);
     inl GMS_RS_MATCHES_WINDOW_NAME; inr (Some 0);
     inl GMS_NRS_MATCHES_WINDOW_NAME; inr (Some 0);
     inr None] /\
  exists k1 k2 k3 : Z, [13; 13; 13] = k1 :: k2 :: k3 :: keys sample_world.
Proof.
  split; [vm_compute; reflexivity |].
  apply (@wait_after_each_configuration sample_extractor spec_matcher
           sample_gms sample_renderer fs_dogs [13; 13; 13] sample_world).
  vm_compute; reflexivity.
Defined.

Lemma runs_on_identical_images_agree_witness :
  (fs_dogs "dog01.jpg"%string = fs_dogs_and_more "dog01.jpg"%string /\
   fs_dogs "dog02.jpg"%string = fs_dogs_and_more "dog02.jpg"%string /\
   fs_dogs "cat.jpg"%string <> fs_dogs_and_more "cat.jpg"%string /\
   sample_main (boot fs_dogs [13; 13; 13])
   = Returned EXIT_SUCCESS sample_world /\
   sample_main (boot fs_dogs_and_more [27; 32; 10; 99])
   = Returned EXIT_SUCCESS sample_world_other) /\
  keypoint_counts sample_world = keypoint_counts sample_world_other /\
  candidate_counts sample_world = candidate_counts sample_world_other /\
  printed_gms_sizes sample_world = printed_gms_sizes sample_world_other.
Proof.
  split.
  { split; [| split; [| split; [| split]]]; try (vm_compute; reflexivity).
    intros H; vm_compute in H; discriminate H. }
  apply (@runs_on_identical_images_agree sample_extractor spec_matcher
           sample_gms sample_renderer fs_dogs fs_dogs_and_more
           [13; 13; 13] [27; 32; 10; 99] EXIT_SUCCESS EXIT_SUCCESS
           sample_world sample_world_other); vm_compute; reflexivity.
Defined.

(** * Further properties of the driver *)

(** ** The window registry *)

Lemma existsb_eqb_In :
  forall (name : string) (ws : list string),
    existsb (String.eqb name) ws = true <-> In name ws.
Proof.
  intros name ws. rewrite existsb_exists. split.
  - intros (x & Hin & E). apply String.eqb_eq in E. now subst.
  - intros Hin. exists name. split; [exact Hin | apply String.eqb_refl].
Qed.

Lemma open_window_known :
  forall (name : string) (ws : list string),
    In name ws -> open_window name ws = ws.
Proof.
  intros name ws Hin. unfold open_window.
  now rewrite (proj2 (existsb_eqb_In name ws) Hin).
Qed.

Lemma open_window_new :
  forall (name : string) (ws : list string),
    ~ In name ws -> open_window name ws = ws ++ [name].
Proof.
  intros name ws Hnin. unfold open_window.
  destruct (existsb (String.eqb name) ws) eqn:E; [| reflexivity].
  apply existsb_eqb_In in E. contradiction.
Qed.

Lemma open_window_In :
  forall (name : string) (ws : list string), In name (open_window name ws).
Proof.
  intros name ws. unfold open_window.
  destruct (existsb (String.eqb name) ws) eqn:E.
  - now apply existsb_eqb_In.
  - apply in_or_app. right. now left.
Qed.

Lemma open_window_NoDup :
  forall (name : string) (ws : list string),
    NoDup ws -> NoDup (open_window name ws).
Proof.
  intros name ws Hnd. unfold open_window.
  destruct (existsb (String.eqb name) ws) eqn:E; [exact Hnd |].
  assert (Hnin : ~ In name ws).
  { intros Hin. apply existsb_eqb_In in Hin. congruence. }
  clear E. induction Hnd as [|x l Hx Hnd IH]; simpl.
  - constructor; [intros [] | constructor].
  - constructor.
    + intros Hin. apply in_app_or in Hin. destruct Hin as [Hin | [-> | []]].
      * contradiction.
      * apply Hnin. now left.
    + apply IH. intros Hin. apply Hnin. now right.
Qed.

Lemma open_window_twice :
  forall (name : string) (ws : list string),
    open_window name (open_window name ws) = open_window name ws.
Proof.
  intros name ws. apply open_window_known, open_window_In.
Qed.

(** ** [displayMatches] *)

(** [displayMatches] never blocks.  It asks for a resizable window, sizes it
    to the columns and rows of the image and shows the image, in this
    order, and touches neither stream nor the pending keys.  The window is
    in the registry afterwards: a known name leaves the registry as it
    was, a new one is added at the end, and a registry without repeated
    names stays so. *)
Theorem displayMatches_effect :
  forall (imageMatches : Mat) (windowName : string) (w : World),
    exists w' : World,
      displayMatches imageMatches windowName w = Returned tt w' /\
      trace w' = trace w ++ show_calls windowName imageMatches /\
      In windowName (windows w') /\
      (In windowName (windows w) -> windows w' = windows w) /\
      (~ In windowName (windows w) ->
       windows w' = windows w ++ [windowName]) /\
      (NoDup (windows w) -> NoDup (windows w')) /\
      cout w' = cout w /\ cerr w' = cerr w /\ keys w' = keys w.
Proof.
  intros img name w. eexists. split; [reflexivity |].
  unfold trace; simpl. rewrite open_window_twice.
  repeat split.
  - now rewrite <- !app_assoc.
  - apply open_window_In.
  - apply open_window_known.
  - apply open_window_new.
  - apply open_window_NoDup.
Qed.

(** ** [detectAndCompute] *)

Section ExtractionEffect.

Context {extractor : Extractor}.

(** [detectAndCompute] never blocks, and its flag is true exactly for the
    ORB tag.  With the flag true, the outputs are what the extractor built
    for [MAX_FEATURES] yields on the image, whatever the output parameters
    held before; the call is the one event added and the announcement the
    one line printed.  With the flag false, the output parameters and the
    world are as they were.  In no case is the error stream, the registry
    or a pending key touched. *)
Theorem detectAndCompute_effect :
  forall (detectorType : DETECTOR_TYPE) (image : Mat)
         (keyPoints : list KeyPoint) (descriptors : Mat) (w : World),
    exists (ok : bool) (kps : list KeyPoint) (desc : Mat) (w' : World),
      detectAndCompute detectorType image keyPoints descriptors w
      = Returned (ok, kps, desc) w' /\
      (ok = true <-> detectorType = ORB) /\
      (ok = true ->
       (kps, desc) = Feature2D_detectAndCompute (ORB_create MAX_FEATURES) image
       /\ trace w'
          = trace w ++ [EDetectAndCompute (ORB_create MAX_FEATURES) image]
       /\ cout w' = (cout w ++ DETECTING_LINE)%string) /\
      (ok = false -> kps = keyPoints /\ desc = descriptors /\ w' = w) /\
      cerr w' = cerr w /\ windows w' = windows w /\ keys w' = keys w.
Proof.
  intros t image kps desc w. unfold detectAndCompute, createDetector.
  destruct (t =? ORB) eqn:E.
  - apply Z.eqb_eq in E. subst t.
    do 4 eexists. split; [reflexivity |]. simpl.
    repeat split; try discriminate; auto.
    now destruct (Feature2D_detectAndCompute (ORB_create MAX_FEATURES) image).
  - apply Z.eqb_neq in E.
    do 4 eexists. split; [reflexivity |].
    repeat split; try discriminate; auto; try (intros ->; contradiction).
Qed.

End ExtractionEffect.

(** ** [gmsCreateDisplayMatches] *)

Section WrapperEffect.

Context {gms : GMSProvider} {renderer : Renderer}.

(** Whatever the world, the wrapper filters, prints the size of the
    filtered list, renders the filtered list over both images, shows the
    composite and only then waits: the calls and the printed line are the
    same whether or not a key press comes.  It returns exactly when a key
    press is pending, consuming that one key and ignoring its code; the
    error stream is never written and a registry without repeated names
    stays so. *)
Theorem gmsCreateDisplayMatches_effect :
  forall (image1 image2 : Mat) (kp1 kp2 : list KeyPoint)
         (matchesAll : list DMatch) (windowName : string)
         (rotation scale : bool) (w : World),
    let run := gmsCreateDisplayMatches image1 image2 kp1 kp2 matchesAll
                 windowName rotation scale w in
    let matchesGMS := matchGMS (Mat_size image1) (Mat_size image1) kp1 kp2
                        matchesAll rotation scale in
    trace (final run)
    = trace w ++ wrapper_calls image1 image2 kp1 kp2 matchesAll windowName
                   rotation scale /\
    cout (final run)
    = (cout w ++ size_line (List.length matchesGMS))%string /\
    cerr (final run) = cerr w /\
    In windowName (windows (final run)) /\
    (NoDup (windows w) -> NoDup (windows (final run))) /\
    keys (final run) = tl (keys w) /\
    returned run = match keys w with [] => None | _ :: _ => Some tt end.
Proof.
  intros image1 image2 kp1 kp2 ms name r s w run matchesGMS.
  subst run matchesGMS.
  unfold gmsCreateDisplayMatches, displayMatches, bind, matchGMS_call,
    drawMatches_call, cout_write, namedWindow, resizeWindow, imshow, waitKey,
    ret, trace, wrapper_calls, show_calls; simpl.
  rewrite open_window_twice.
  destruct (keys w) as [|k ks] eqn:K; simpl; repeat split;
    try exact K;
    try (now rewrite <- !app_assoc);
    try apply open_window_In;
    apply open_window_NoDup.
Qed.

End WrapperEffect.

(** ** Whole runs *)

Section RunContents.

Context {extractor : Extractor} {matcher : DescriptorMatcher}
        {gms : GMSProvider} {renderer : Renderer}.

Lemma string_append_assoc :
  forall a b c : string, (a ++ (b ++ c))%string = ((a ++ b) ++ c)%string.
Proof.
  intros a b c. induction a as [|x a IH]; simpl; [reflexivity | now rewrite IH].
Qed.

(** The world a successful run ends in. *)
Lemma successful_run_world :
  forall (fs : string -> Mat) (ks : list Z) (w : World),
    main (boot fs ks) = Returned EXIT_SUCCESS w ->
    let dog01 := fs "dog01.jpg"%string in
    let dog02 := fs "dog02.jpg"%string in
    trace w
    = [EImread "dog01.jpg"; EImread "dog02.jpg"]
      ++ show_calls "Dog01 Image" dog01
      ++ show_calls "Dog02 Image" dog02
      ++ [EDetectAndCompute (ORB_create MAX_FEATURES) dog01;
          EDetectAndCompute (ORB_create MAX_FEATURES) dog02;
          EMatch (BFMatcher_create NORM_HAMMING false)
                 (snd (extracted dog01)) (snd (extracted dog02))]
      ++ configuration_calls dog01 dog02 GMS_NO_RS_MATCHES_WINDOW_NAME
           false false
      ++ configuration_calls dog01 dog02 GMS_RS_MATCHES_WINDOW_NAME
           true true
      ++ configuration_calls dog01 dog02 GMS_NRS_MATCHES_WINDOW_NAME
           false true
      ++ [EDestroyAllWindows] /\
    cout w
    = (DETECTING_LINE ++ DETECTING_LINE
       ++ size_line (List.length (gms_output dog01 dog02 false false))
       ++ size_line (List.length (gms_output dog01 dog02 true true))
       ++ size_line (List.length (gms_output dog01 dog02 false true)))%string /\
    cerr w = EmptyString /\
    windows w = [].
Proof.
  intros fs ks w H dog01 dog02. subst dog01 dog02.
  rewrite !string_append_assoc.
  run_main H fs ks. injection H as <-.
  split; [| split; [| split]]; reflexivity.
Qed.

(** The world a fatal run ends in. *)
Lemma fatal_run_world :
  forall (fs : string -> Mat) (ks : list Z),
    isValidImage (fs "dog01.jpg"%string) = false \/
    isValidImage (fs "dog02.jpg"%string) = false ->
    main (boot fs ks)
    = Returned EXIT_FAILURE
        (mkWorld fs ks EmptyString MSG_UNABLE_TO_LOAD
           ["Dog01 Image"%string; "Dog02 Image"%string]
           (rev ([EImread "dog01.jpg"; EImread "dog02.jpg"]
                 ++ show_calls "Dog01 Image" (fs "dog01.jpg"%string)
                 ++ show_calls "Dog02 Image" (fs "dog02.jpg"%string)))).
Proof.
  intros fs ks Hinv.
  assert (E : negb (isValidImage (fs "dog01.jpg"%string))
              || negb (isValidImage (fs "dog02.jpg"%string)) = true).
  { destruct Hinv as [-> | ->]; [reflexivity | apply orb_true_r]. }
  unfold main, bind, imread; simpl.
  unfold displayMatches, bind, namedWindow, resizeWindow, imshow; simpl.
  now rewrite E.
Qed.

End RunContents.

Section RunProperties.

Context {extractor : Extractor} {matcher : DescriptorMatcher}
        {gms : GMSProvider} {renderer : Renderer}.

(** The calls of a successful run, all of them and in order: the two
    images are read and shown, the extractor built for [MAX_FEATURES] runs
    on the first and then on the second, the matcher gets the descriptors of
    the first as query and of the second as train, each configuration
    filters the same candidates, renders and shows its result and waits,
    and closing the windows is the last call. *)
Theorem successful_run_call_sequence :
  forall (fs : string -> Mat) (ks : list Z) (w : World),
    main (boot fs ks) = Returned EXIT_SUCCESS w ->
    let dog01 := fs "dog01.jpg"%string in
    let dog02 := fs "dog02.jpg"%string in
    trace w
    = [EImread "dog01.jpg"; EImread "dog02.jpg"]
      ++ show_calls "Dog01 Image" dog01
      ++ show_calls "Dog02 Image" dog02
      ++ [EDetectAndCompute (ORB_create MAX_FEATURES) dog01;
          EDetectAndCompute (ORB_create MAX_FEATURES) dog02;
          EMatch (BFMatcher_create NORM_HAMMING false)
                 (snd (extracted dog01)) (snd (extracted dog02))]
      ++ configuration_calls dog01 dog02 GMS_NO_RS_MATCHES_WINDOW_NAME
           false false
      ++ configuration_calls dog01 dog02 GMS_RS_MATCHES_WINDOW_NAME
           true true
      ++ configuration_calls dog01 dog02 GMS_NRS_MATCHES_WINDOW_NAME
           false true
      ++ [EDestroyAllWindows].
Proof.
  intros fs ks w H. exact (proj1 (successful_run_world fs ks w H)).
Qed.

(** The standard output of a successful run is five lines: the extraction
    announcement twice, then for each configuration, in the order (false,
    false), (true, true), (false, true), the size of the list the GMS
    filter returned for it.  Nothing is written to the error stream. *)
Theorem successful_run_stdout :
  forall (fs : string -> Mat) (ks : list Z) (w : World),
    main (boot fs ks) = Returned EXIT_SUCCESS w ->
    let dog01 := fs "dog01.jpg"%string in
    let dog02 := fs "dog02.jpg"%string in
    cout w
    = (DETECTING_LINE ++ DETECTING_LINE
       ++ size_line (List.length (gms_output dog01 dog02 false false))
       ++ size_line (List.length (gms_output dog01 dog02 true true))
       ++ size_line (List.length (gms_output dog01 dog02 false true)))%string /\
    cerr w = EmptyString.
Proof.
  intros fs ks w H.
  destruct (successful_run_world fs ks w H) as (_ & Hout & Herr & _).
  split; [exact Hout | exact Herr].
Qed.

(** A successful run creates five windows, the two source windows and then
    the three GMS windows, under five different names; it closes them in
    its last call and in no earlier one, and the registry is empty when it
    returns. *)
Theorem successful_run_windows :
  forall (fs : string -> Mat) (ks : list Z) (w : World),
    main (boot fs ks) = Returned EXIT_SUCCESS w ->
    created_windows w
    = ["Dog01 Image"%string; "Dog02 Image"%string] ++ GMS_WINDOW_NAMES /\
    NoDup (created_windows w) /\
    last (trace w) (EWaitKey 0) = EDestroyAllWindows /\
    ~ In EDestroyAllWindows (removelast (trace w)) /\
    windows w = [].
Proof.
  intros fs ks w H.
  destruct (successful_run_world fs ks w H) as (Htr & _ & _ & Hwin).
  cbv zeta in Htr. unfold created_windows. rewrite Htr.
  split; [reflexivity |]. split.
  { repeat (constructor; [cbv; intuition discriminate |]). constructor. }
  split; [reflexivity |]. split; [| exact Hwin].
  cbv; intuition discriminate.
Qed.

(** A run over an invalid image makes eight calls and no other: both files
    are read and both source windows are created, sized to what was read
    and shown, the check coming only after.  The run returns without
    waiting for the user: no pending key press is consumed and none is
    needed.  Nothing is written to the standard output. *)
Theorem fatal_run_call_sequence :
  forall (fs : string -> Mat) (ks : list Z),
    isValidImage (fs "dog01.jpg"%string) = false \/
    isValidImage (fs "dog02.jpg"%string) = false ->
    exists w : World,
      main (boot fs ks) = Returned EXIT_FAILURE w /\
      trace w
      = [EImread "dog01.jpg"; EImread "dog02.jpg"]
        ++ show_calls "Dog01 Image" (fs "dog01.jpg"%string)
        ++ show_calls "Dog02 Image" (fs "dog02.jpg"%string) /\
      keys w = ks /\
      cout w = EmptyString.
Proof.
  intros fs ks Hinv. eexists. split; [apply fatal_run_world, Hinv |].
  unfold trace. cbn [events]. rewrite rev_involutive. repeat split.
Qed.

(** With two valid images and fewer than three key presses the run does
    not return.  It has used up every key press, has made one GMS call and
    one wait more than there were key presses, and stays blocked with the
    source windows and that many GMS windows open; it has closed none. *)
Theorem blocked_run_state :
  forall (fs : string -> Mat) (ks : list Z),
    isValidImage (fs "dog01.jpg"%string) = true ->
    isValidImage (fs "dog02.jpg"%string) = true ->
    (List.length ks < 3)%nat ->
    exists w : World,
      main (boot fs ks) = Blocked w /\
      keys w = [] /\
      List.length (gms_inputs w) = S (List.length ks) /\
      List.length (filter (fun s => match s with
                                    | inr (Some _) => true
                                    | _ => false
                                    end) (display_steps w))
      = S (List.length ks) /\
      windows w
      = ["Dog01 Image"%string; "Dog02 Image"%string]
        ++ firstn (S (List.length ks)) GMS_WINDOW_NAMES /\
      ~ In EDestroyAllWindows (trace w).
Proof.
  intros fs ks V1 V2 Hlen.
  destruct (main (boot fs ks)) as [c w|w] eqn:H.
  - exfalso. run_main H fs ks; simpl in Hlen; lia.
  - exists w. split; [reflexivity |].
    run_main H fs ks; try (simpl in Hlen; lia);
      injection H as <-;
      (split; [reflexivity |]); (split; [reflexivity |]);
      (split; [reflexivity |]); (split; [reflexivity |]);
      cbv; intuition discriminate.
Qed.

(** Whether and with what a run returns: [EXIT_FAILURE] when an image is
    invalid, however many key presses are pending; with two valid images,
    [EXIT_SUCCESS] when three key presses or more are pending and no
    return at all when fewer are. *)
Theorem main_exit_status :
  forall (fs : string -> Mat) (ks : list Z),
    returned (main (boot fs ks))
    = if isValidImage (fs "dog01.jpg"%string)
         && isValidImage (fs "dog02.jpg"%string)
      then if (3 <=? List.length ks)%nat then Some EXIT_SUCCESS else None
      else Some EXIT_FAILURE.
Proof.
  intros fs ks.
  destruct (isValidImage (fs "dog01.jpg"%string)) eqn:V1;
    [destruct (isValidImage (fs "dog02.jpg"%string)) eqn:V2 |]; simpl andb;
    cbv iota.
  - destruct ks as [|k1 [|k2 [|k3 ks]]];
      try (match goal with
           | |- context [boot fs ?l] =>
               destruct (main_blocks_without_key_press fs l V1 V2)
                 as (w & -> & _); [simpl; lia | reflexivity]
           end).
    destruct (main_succeeds fs k1 k2 k3 ks V1 V2) as (w & -> & _).
    reflexivity.
  - now rewrite (fatal_run_world fs ks (or_intror V2)).
  - now rewrite (fatal_run_world fs ks (or_introl V1)).
Qed.

(** What a run, returned or blocked, has written to the error stream:
    nothing when both images are valid, the image diagnostic otherwise.
    The detector diagnostic is written by no run. *)
Theorem main_error_stream :
  forall (fs : string -> Mat) (ks : list Z),
    cerr (final (main (boot fs ks)))
    = (if isValidImage (fs "dog01.jpg"%string)
          && isValidImage (fs "dog02.jpg"%string)
       then EmptyString else MSG_UNABLE_TO_LOAD) /\
    cerr (final (main (boot fs ks))) <> MSG_INVALID_DETECTOR.
Proof.
  intros fs ks.
  assert (E : cerr (final (main (boot fs ks)))
              = if isValidImage (fs "dog01.jpg"%string)
                   && isValidImage (fs "dog02.jpg"%string)
                then EmptyString else MSG_UNABLE_TO_LOAD).
  { destruct (main (boot fs ks)) as [c w|w] eqn:H;
      run_main H fs ks;
      first [injection H as <- <- | injection H as <-]; reflexivity. }
  split; [exact E |]. rewrite E.
  destruct (isValidImage (fs "dog01.jpg"%string)
            && isValidImage (fs "dog02.jpg"%string)); discriminate.
Qed.

End RunProperties.

(** ** The further properties on sample runs *)

Lemma successful_run_call_sequence_witness :
  sample_main (boot fs_dogs [13; 13; 13]) = Returned EXIT_SUCCESS sample_world /\
  trace sample_world
  = [EImread "dog01.jpg"; EImread "dog02.jpg"]
    ++ show_calls "Dog01 Image" sample_dog01
    ++ show_calls "Dog02 Image" sample_dog02
    ++ [EDetectAndCompute (ORB_create MAX_FEATURES) sample_dog01;
        EDetectAndCompute (ORB_create MAX_FEATURES) sample_dog02;
        EMatch (BFMatcher_create NORM_HAMMING false)
               (snd (extracted sample_dog01)) (snd (extracted sample_dog02))]
    ++ configuration_calls sample_dog01 sample_dog02
         GMS_NO_RS_MATCHES_WINDOW_NAME false false
    ++ configuration_calls sample_dog01 sample_dog02
         GMS_RS_MATCHES_WINDOW_NAME true true
    ++ configuration_calls sample_dog01 sample_dog02
         GMS_NRS_MATCHES_WINDOW_NAME false true
    ++ [EDestroyAllWindows].
Proof.
  split; [vm_compute; reflexivity |].
  apply (@successful_run_call_sequence sample_extractor spec_matcher
           sample_gms sample_renderer fs_dogs [13; 13; 13] sample_world).
  vm_compute; reflexivity.
Defined.

Lemma successful_run_stdout_witness :
  sample_main (boot fs_dogs [13; 13; 13]) = Returned EXIT_SUCCESS sample_world /\
  cout sample_world
  = (DETECTING_LINE ++ DETECTING_LINE
     ++ size_line (List.length (gms_output sample_dog01 sample_dog02
                                           false false))
     ++ size_line (List.length (gms_output sample_dog01 sample_dog02
                                           true true))
     ++ size_line (List.length (gms_output sample_dog01 sample_dog02
                                           false true)))%string /\
  cerr sample_world = EmptyString.
Proof.
  split; [vm_compute; reflexivity |].
  apply (@successful_run_stdout sample_extractor spec_matcher
           sample_gms sample_renderer fs_dogs [13; 13; 13] sample_world).
  vm_compute; reflexivity.
Defined.

Lemma successful_run_windows_witness :
  sample_main (boot fs_dogs [13; 13; 13]) = Returned EXIT_SUCCESS sample_world /\
  created_windows sample_world
  = ["Dog01 Image"%string; "Dog02 Image"%string] ++ GMS_WINDOW_NAMES /\
  NoDup (created_windows sample_world) /\
  last (trace sample_world) (EWaitKey 0) = EDestroyAllWindows /\
  ~ In EDestroyAllWindows (removelast (trace sample_world)) /\
  windows sample_world = [].
Proof.
  split; [vm_compute; reflexivity |].
  apply (@successful_run_windows sample_extractor spec_matcher
           sample_gms sample_renderer fs_dogs [13; 13; 13] sample_world).
  vm_compute; reflexivity.
Defined.

Lemma fatal_run_call_sequence_witness :
  (isValidImage (fs_first_missing "dog01.jpg"%string) = false \/
   isValidImage (fs_first_missing "dog02.jpg"%string) = false) /\
  exists w : World,
    sample_main (boot fs_first_missing []) = Returned EXIT_FAILURE w /\
    trace w
    = [EImread "dog01.jpg"; EImread "dog02.jpg"]
      ++ show_calls "Dog01 Image" (fs_first_missing "dog01.jpg"%string)
      ++ show_calls "Dog02 Image" (fs_first_missing "dog02.jpg"%string) /\
    keys w = [] /\
    cout w = EmptyString.
Proof.
  split; [left; reflexivity |].
  apply (@fatal_run_call_sequence sample_extractor spec_matcher sample_gms
           sample_renderer fs_first_missing []).
  left; reflexivity.
Defined.

Lemma blocked_run_state_witness :
  (isValidImage (fs_dogs "dog01.jpg"%string) = true /\
   isValidImage (fs_dogs "dog02.jpg"%string) = true /\
   (List.length [13] < 3)%nat) /\
  exists w : World,
    sample_main (boot fs_dogs [13]) = Blocked w /\
    keys w = [] /\
    List.length (gms_inputs w) = S (List.length [13]) /\
    List.length (filter (fun s => match s with
                                  | inr (Some _) => true
                                  | _ => false
                                  end) (display_steps w))
    = S (List.length [13]) /\
    windows w
    = ["Dog01 Image"%string; "Dog02 Image"%string]
      ++ firstn (S (List.length [13])) GMS_WINDOW_NAMES /\
    ~ In EDestroyAllWindows (trace w).
Proof.
  split; [split; [reflexivity | split; [reflexivity | simpl; lia]] |].
  apply (@blocked_run_state sample_extractor spec_matcher sample_gms
           sample_renderer fs_dogs [13]);
    [reflexivity | reflexivity | simpl; lia].
Defined.
